(** * CBB Edge Finder Proxy: the usage ledger and the request handlers

    A shallow embedding of [app.py].  The module-level dictionary
    [usage_data], the system calendar read by [date.today()] and the
    outbound HTTP calls made through [requests.get] are the three effects
    of the program; they are threaded through a state monad over a
    [World].  Lines printed to standard output are not part of the model:
    no handler reads them back. *)

From stdpp Require Import gmap strings pretty.
From Stdlib Require Import ZArith Lia ZifyNat Ascii String.

Local Open Scope string_scope.
Local Open Scope Z_scope.

(** ** Calendar dates and the two key formats *)

(** A [datetime.date]: [date.today()] returns the local calendar date, whose
    year has four digits. *)
Record date := mkDate { d_year : nat; d_month : nat; d_day : nat }.

Definition digit (n : nat) : ascii := ascii_of_nat (48 + n mod 10).

(** ["%02d"] and ["%04d"] on the ranges a date has. *)
Definition pad2 (n : nat) : string :=
  String (digit (n / 10)) (String (digit n) EmptyString).

Definition pad4 (n : nat) : string :=
  String (digit (n / 1000)) (String (digit (n / 100))
    (String (digit (n / 10)) (String (digit n) EmptyString))).

(** [d.isoformat()], i.e. YYYY-MM-DD. *)
Definition isoformat (d : date) : string :=
  pad4 (d_year d) +:+ "-" +:+ pad2 (d_month d) +:+ "-" +:+ pad2 (d_day d).

(** [d.strftime("%Y-%m")]. *)
Definition strftime_Ym (d : date) : string :=
  pad4 (d_year d) +:+ "-" +:+ pad2 (d_month d).

(** ** JSON values, responses and outbound requests *)

#[warnings="-register-all"]
Inductive json :=
| JNull
| JBool (b : bool)
| JNum (n : Z)
| JStr (s : string)
| JArr (l : list json)
| JObj (fields : list (string * json)).

(** What a Flask view returns: a JSON body and a status code
    ([jsonify(x)] alone is status 200). *)
Record FlaskResponse := mkResp { resp_body : json; resp_status : Z }.

(** The arguments of one [requests.get] call. *)
Record HttpRequest := mkReq {
  req_url : string;
  req_params : list (string * string);
  req_headers : list (string * string);
  req_timeout : Z
}.

(** A [requests.Response]: its [status_code], and what [response.json()]
    gives: the decoded body, or the text of the exception it raises when
    the body is not JSON. *)
Record Response := mkResponse {
  status_code : Z;
  json_result : string + json
}.

(** The outcome of [requests.get]: it raises (connection error, timeout),
    with [str(e)] as given, or it returns a response. *)
Inductive NetResult :=
| Raised (msg : string)
| Returned (r : Response).

(** ** The world *)

(** [usage_data = {"daily": {}, "monthly": {}}]. *)
Record UsageData := mkUsage {
  daily : gmap string Z;
  monthly : gmap string Z
}.

Definition empty_usage : UsageData := {| daily := ∅; monthly := ∅ |}.

(** [clock w n] is the date the [n]-th reading of the calendar returns and
    [clock_reads w] counts the readings made so far; [upstream w n r] is the
    outcome of request [r] when it is the [n]-th outbound call, and [sent w]
    lists the outbound calls made so far, oldest first. *)
Record World := mkWorld {
  usage_data : UsageData;
  clock : nat → date;
  clock_reads : nat;
  upstream : nat → HttpRequest → NetResult;
  sent : list HttpRequest
}.

Definition M (A : Type) : Type := World → A * World.

#[global] Instance world_ret : MRet M := λ A a w, (a, w).

#[global] Instance world_bind : MBind M :=
  λ A B f m w, let (a, w') := m w in f a w'.

(** The value and the final world of a run. *)
Definition result {A} (m : M A) (w : World) : A := fst (m w).
Definition after {A} (m : M A) (w : World) : World := snd (m w).

(** [n] runs of [m] in a row. *)
Fixpoint times {A} (n : nat) (m : M A) : M unit :=
  match n with
  | O => mret tt
  | S n' => m;; times n' m
  end.

(** [date.today()]. *)
Definition date_today : M date :=
  λ w, (clock w (clock_reads w),
        {| usage_data := usage_data w; clock := clock w;
           clock_reads := S (clock_reads w);
           upstream := upstream w; sent := sent w |}).

Definition read_usage : M UsageData := λ w, (usage_data w, w).

Definition write_usage (u : UsageData) : M unit :=
  λ w, (tt, {| usage_data := u; clock := clock w;
               clock_reads := clock_reads w;
               upstream := upstream w; sent := sent w |}).

(** [requests.get(url, params=..., headers=..., timeout=...)]: [inl] is the
    exception raised. *)
Definition requests_get (r : HttpRequest) : M (string + Response) :=
  λ w, (match upstream w (List.length (sent w)) r with
        | Raised e => inl e
        | Returned resp => inr resp
        end,
        {| usage_data := usage_data w; clock := clock w;
           clock_reads := clock_reads w;
           upstream := upstream w; sent := sent w ++ [r] |}).

(** ** The usage ledger *)

Definition DAILY_LIMIT : Z := 100.

(** [d.get(k, default)]. *)
Definition dict_get (d : gmap string Z) (k : string) (default : Z) : Z :=
  match d !! k with
  | Some v => v
  | None => default
  end.

Definition get_today_key : M string :=
  d ← date_today; mret (isoformat d).

Definition get_month_key : M string :=
  d ← date_today; mret (strftime_Ym d).

(** The dictionary [get_usage_stats] returns. *)
Record UsageStats := mkStats {
  today : Z;
  todayRemaining : Z;
  month : Z;
  dailyLimit : Z
}.

Definition get_usage_stats : M UsageStats :=
  today ← get_today_key;
  month ← get_month_key;
  u ← read_usage;
  let today_count := dict_get (daily u) today 0 in
  let month_count := dict_get (monthly u) month 0 in
  mret {| today := today_count;
         todayRemaining := Z.max 0 (DAILY_LIMIT - today_count);
         month := month_count;
         dailyLimit := DAILY_LIMIT |}.

Definition increment_usage : M UsageStats :=
  today ← get_today_key;
  month ← get_month_key;
  u ← read_usage;
  write_usage {| daily := <[today := dict_get (daily u) today 0 + 1]> (daily u);
                 monthly := monthly u |};;
  u ← read_usage;
  write_usage {| daily := daily u;
                 monthly := <[month := dict_get (monthly u) month 0 + 1]> (monthly u) |};;
  get_usage_stats.

(** ** The routes *)

Definition CBBD_API_BASE : string := "https://api.collegebasketballdata.com".
Definition ODDS_API_BASE : string := "https://api.the-odds-api.com/v4".

(** [jsonify({"error": msg})]. *)
Definition error_body (msg : string) : json := JObj [("error", JStr msg)].

(** [jsonify] of the dictionary [get_usage_stats] returns. *)
Definition stats_body (s : UsageStats) : json :=
  JObj [("today", JNum (today s));
        ("todayRemaining", JNum (todayRemaining s));
        ("month", JNum (month s));
        ("dailyLimit", JNum (dailyLimit s))].

(** [request.args.get(key, default)] on the query string of the inbound
    request: the first value given for [key]. *)
Fixpoint args_get (args : list (string * string)) (key default : string) : string :=
  match args with
  | [] => default
  | (k, v) :: rest => if String.eqb k key then v else args_get rest key default
  end.

(** [not s] for a string: true on the empty string only. *)
Definition not_str (s : string) : bool :=
  match s with
  | EmptyString => true
  | String _ _ => false
  end.

Section Routes.

(** [os.environ.get('CBBD_API_KEY', '')] and [os.environ.get('ODDS_API_KEY', '')],
    read once when the module is loaded. *)
Variables CBBD_API_KEY ODDS_API_KEY : string.

Definition health : M FlaskResponse :=
  s ← get_usage_stats;
  mret {| resp_body := JObj [("status", JStr "ok");
                             ("service", JStr "CBB Edge Finder Proxy");
                             ("usage", stats_body s)];
          resp_status := 200 |}.

Definition usage : M FlaskResponse :=
  s ← get_usage_stats;
  mret {| resp_body := stats_body s; resp_status := 200 |}.

(** In the four proxies below every [inl e] branch is the
    [except Exception as e] clause of the view. *)

Definition get_odds : M FlaskResponse :=
  if not_str ODDS_API_KEY then
    mret {| resp_body := error_body "ODDS_API_KEY not configured"; resp_status := 500 |}
  else
    let url := ODDS_API_BASE +:+ "/sports/basketball_ncaab/odds/" in
    let params := [("apiKey", ODDS_API_KEY); ("regions", "us");
                   ("markets", "spreads,totals"); ("oddsFormat", "american")] in
    r ← requests_get {| req_url := url; req_params := params;
                        req_headers := []; req_timeout := 30 |};
    match r with
    | inl e => mret {| resp_body := error_body e; resp_status := 500 |}
    | inr response =>
        if bool_decide (status_code response = 200) then
          match json_result response with
          | inl e => mret {| resp_body := error_body e; resp_status := 500 |}
          | inr body => mret {| resp_body := body; resp_status := 200 |}
          end
        else
          match json_result response with
          | inl e => mret {| resp_body := error_body e; resp_status := 500 |}
          | inr body => mret {| resp_body := body; resp_status := status_code response |}
          end
    end.

Definition get_ratings (args : list (string * string)) : M FlaskResponse :=
  if not_str CBBD_API_KEY then
    mret {| resp_body := error_body "CBBD_API_KEY not configured"; resp_status := 500 |}
  else
    let season := args_get args "season" "2026" in
    let url := CBBD_API_BASE +:+ "/ratings/adjusted" in
    let params := [("season", season)] in
    let headers := [("Authorization", "Bearer " +:+ CBBD_API_KEY);
                    ("Content-Type", "application/json")] in
    r ← requests_get {| req_url := url; req_params := params;
                        req_headers := headers; req_timeout := 30 |};
    match r with
    | inl e => mret {| resp_body := error_body e; resp_status := 500 |}
    | inr response =>
        if bool_decide (status_code response = 200) then
          stats ← increment_usage;
          match json_result response with
          | inl e => mret {| resp_body := error_body e; resp_status := 500 |}
          | inr body => mret {| resp_body := body; resp_status := 200 |}
          end
        else
          mret {| resp_body := error_body ("API returned " +:+ pretty (status_code response));
                  resp_status := status_code response |}
    end.

Definition get_games (args : list (string * string)) : M FlaskResponse :=
  if not_str CBBD_API_KEY then
    mret {| resp_body := error_body "CBBD_API_KEY not configured"; resp_status := 500 |}
  else
    let season := args_get args "season" "2026" in
    let url := CBBD_API_BASE +:+ "/games" in
    let params := [("season", season)] in
    let headers := [("Authorization", "Bearer " +:+ CBBD_API_KEY);
                    ("Content-Type", "application/json")] in
    r ← requests_get {| req_url := url; req_params := params;
                        req_headers := headers; req_timeout := 30 |};
    match r with
    | inl e => mret {| resp_body := error_body e; resp_status := 500 |}
    | inr response =>
        if bool_decide (status_code response = 200) then
          stats ← increment_usage;
          match json_result response with
          | inl e => mret {| resp_body := error_body e; resp_status := 500 |}
          | inr body => mret {| resp_body := body; resp_status := 200 |}
          end
        else
          mret {| resp_body := error_body ("API returned " +:+ pretty (status_code response));
                  resp_status := status_code response |}
    end.

Definition get_teams : M FlaskResponse :=
  if not_str CBBD_API_KEY then
    mret {| resp_body := error_body "CBBD_API_KEY not configured"; resp_status := 500 |}
  else
    let url := CBBD_API_BASE +:+ "/teams" in
    let headers := [("Authorization", "Bearer " +:+ CBBD_API_KEY);
                    ("Content-Type", "application/json")] in
    r ← requests_get {| req_url := url; req_params := [];
                        req_headers := headers; req_timeout := 30 |};
    match r with
    | inl e => mret {| resp_body := error_body e; resp_status := 500 |}
    | inr response =>
        if bool_decide (status_code response = 200) then
          stats ← increment_usage;
          match json_result response with
          | inl e => mret {| resp_body := error_body e; resp_status := 500 |}
          | inr body => mret {| resp_body := body; resp_status := 200 |}
          end
        else
          mret {| resp_body := error_body ("API returned " +:+ pretty (status_code response));
                  resp_status := status_code response |}
    end.

End Routes.

(** ** Vocabulary of the properties *)

(** The three views that count against the quota, as one family. *)
Inductive stats_endpoint := Ratings | Games | Teams.

Definition stats_view (key : string) (args : list (string * string))
    (e : stats_endpoint) : M FlaskResponse :=
  match e with
  | Ratings => get_ratings key args
  | Games => get_games key args
  | Teams => get_teams key
  end.

(** The request each of them hands to [requests.get]. *)
Definition stats_request (key : string) (args : list (string * string))
    (e : stats_endpoint) : HttpRequest :=
  let headers := [("Authorization", "Bearer " +:+ key);
                  ("Content-Type", "application/json")] in
  match e with
  | Ratings => {| req_url := CBBD_API_BASE +:+ "/ratings/adjusted";
                  req_params := [("season", args_get args "season" "2026")];
                  req_headers := headers; req_timeout := 30 |}
  | Games => {| req_url := CBBD_API_BASE +:+ "/games";
                req_params := [("season", args_get args "season" "2026")];
                req_headers := headers; req_timeout := 30 |}
  | Teams => {| req_url := CBBD_API_BASE +:+ "/teams";
                req_params := [];
                req_headers := headers; req_timeout := 30 |}
  end.

(** The request [get_odds] hands to [requests.get]. *)
Definition odds_request (key : string) : HttpRequest :=
  {| req_url := ODDS_API_BASE +:+ "/sports/basketball_ncaab/odds/";
     req_params := [("apiKey", key); ("regions", "us");
                    ("markets", "spreads,totals"); ("oddsFormat", "american")];
     req_headers := []; req_timeout := 30 |}.

(** What the next outbound call of [w] would get for request [r]. *)
Definition next_outcome (w : World) (r : HttpRequest) : NetResult :=
  upstream w (List.length (sent w)) r.

(** From now on every reading of the calendar gives [D]. *)
Definition clock_at (D : date) (w : World) : Prop :=
  ∀ t, (clock_reads w ≤ t)%nat → clock w t = D.

(** From now on every reading of the calendar gives a date whose day-key
    is [k]. *)
Definition day_key_is (k : string) (w : World) : Prop :=
  ∀ t, (clock_reads w ≤ t)%nat → isoformat (clock w t) = k.

(** The pure content of [get_usage_stats] once the two keys are known. *)
Definition stats_of (tk mk : string) (u : UsageData) : UsageStats :=
  {| today := dict_get (daily u) tk 0;
     todayRemaining := Z.max 0 (DAILY_LIMIT - dict_get (daily u) tk 0);
     month := dict_get (monthly u) mk 0;
     dailyLimit := DAILY_LIMIT |}.

(** The pure content of the two assignments of [increment_usage]. *)
Definition bump (tk mk : string) (u : UsageData) : UsageData :=
  {| daily := <[tk := dict_get (daily u) tk 0 + 1]> (daily u);
     monthly := <[mk := dict_get (monthly u) mk 0 + 1]> (monthly u) |}.

(** The world with ledger [u] after [n] more readings of the calendar. *)
Definition advance (n : nat) (u : UsageData) (w : World) : World :=
  {| usage_data := u; clock := clock w;
     clock_reads := n + clock_reads w;
     upstream := upstream w; sent := sent w |}.

(** The month a day-key belongs to: its first seven characters. *)
Definition month_of_day_key (k : string) : string := substring 0 7 k.

(** The sum of the daily counts over the day-keys of month [mk]. *)
Definition month_total (mk : string) (d : gmap string Z) : Z :=
  map_fold (λ k v acc, if bool_decide (month_of_day_key k = mk)
                       then v + acc else acc) 0 d.

(** The ledgers a run of the server can hold: it starts empty and only
    [increment_usage] writes to it.  The premise on the clock says the two
    readings of one call fall on the same date. *)
Inductive reachable : UsageData → Prop :=
| reachable_start : reachable empty_usage
| reachable_increment (w : World) :
    reachable (usage_data w) →
    clock w (S (clock_reads w)) = clock w (clock_reads w) →
    reachable (usage_data (after increment_usage w)).

(** The reading of the specification's error contract under test: a non-200
    answer with a JSON body reaches the caller with its status and body. *)
Definition forwards_upstream_error (view : M FlaskResponse) (r : HttpRequest) : Prop :=
  ∀ w response body,
    next_outcome w r = Returned response →
    status_code response ≠ 200 →
    json_result response = inr body →
    result view w = {| resp_body := body; resp_status := status_code response |}.

(** Every outbound call is answered with status 200. *)
Definition answers_200 (w : World) : Prop :=
  ∀ n r, ∃ response,
    upstream w n r = Returned response ∧ status_code response = 200.

(** Sample data: a calendar standing on one date, an upstream that gives
    every call the same outcome, and a ledger. *)
Definition sample_world (D : date) (outcome : NetResult) (u : UsageData) : World :=
  {| usage_data := u; clock := λ _, D; clock_reads := 0;
     upstream := λ _ _, outcome; sent := [] |}.

Definition jan31 : date := {| d_year := 2026; d_month := 1; d_day := 31 |}.
Definition feb01 : date := {| d_year := 2026; d_month := 2; d_day := 1 |}.
Definition jan30 : date := {| d_year := 2026; d_month := 1; d_day := 30 |}.

Definition ok_outcome : NetResult :=
  Returned {| status_code := 200; json_result := inr (JArr []) |}.

Definition not_found_body : json := JObj [("message", JStr "Not Found")].

Definition not_found_outcome : NetResult :=
  Returned {| status_code := 404; json_result := inr not_found_body |}.

(** A world whose upstream answers 404 with a JSON body, and one whose
    upstream answers 200, both on the empty ledger. *)
Definition not_found_world : World := sample_world jan31 not_found_outcome empty_usage.
Definition ok_world : World := sample_world jan31 ok_outcome empty_usage.

(** A world whose upstream call times out. *)
Definition timeout_world : World :=
  sample_world jan31 (Raised "Read timed out.") empty_usage.

(** A ledger holding 150 calls for 31 January, above the limit. *)
Definition over_limit_world : World :=
  sample_world jan31 ok_outcome
    {| daily := {["2026-01-31" := 150]}; monthly := {["2026-01" := 150]} |}.

(** A calendar that stands on [D] for its first eight readings, the two
    calls of [increment_usage] made here, and on [D'] afterwards. *)
Definition rollover_world (D D' : date) : World :=
  after (times 2 increment_usage)
    {| usage_data := empty_usage;
       clock := λ t, if (t <? 8)%nat then D else D';
       clock_reads := 0;
       upstream := λ _ _, ok_outcome; sent := [] |}.

(** The ledger after two counted calls on 31 January. *)
Definition two_calls_ledger : UsageData :=
  usage_data (after increment_usage (after increment_usage ok_world)).

(** ** The route table and further vocabulary *)

(** The [@app.route] decorators: the view a path is bound to.  [None] is a
    path no view is registered for. *)
Definition route (cbbd_key odds_key path : string) (args : list (string * string))
    : option (M FlaskResponse) :=
  if String.eqb path "/" then Some health
  else if String.eqb path "/health" then Some health
  else if String.eqb path "/api/usage" then Some usage
  else if String.eqb path "/api/odds" then Some (get_odds odds_key)
  else if String.eqb path "/api/ratings" then Some (get_ratings cbbd_key args)
  else if String.eqb path "/api/games" then Some (get_games cbbd_key args)
  else if String.eqb path "/api/teams" then Some (get_teams cbbd_key)
  else None.

(** The world [w] holding ledger [u] instead of its own. *)
Definition with_ledger (u : UsageData) (w : World) : World :=
  {| usage_data := u; clock := clock w; clock_reads := clock_reads w;
     upstream := upstream w; sent := sent w |}.

(** The calendar gives [D] for the next [n] readings and [D'] from then on. *)
Definition clock_turns (D D' : date) (n : nat) (w : World) : Prop :=
  (∀ t, (clock_reads w ≤ t < clock_reads w + n)%nat → clock w t = D)
  ∧ (∀ t, (clock_reads w + n ≤ t)%nat → clock w t = D').

(** The dates [datetime.date] can hold, as far as the key formats go. *)
Definition date_in_range (d : date) : Prop :=
  (d_year d < 100 * 100 ∧ d_month d < 100 ∧ d_day d < 100)%nat.

(** The next outbound call of [w], if it is [r], is answered with status 200. *)
Definition answered_200 (w : World) (r : HttpRequest) : bool :=
  match next_outcome w r with
  | Returned response => bool_decide (status_code response = 200)
  | Raised _ => false
  end.

(** A series of calls to the statistics views, one after the other, and the
    number of them whose upstream call is answered with status 200. *)
Fixpoint run_calls (key : string)
    (calls : list (stats_endpoint * list (string * string))) : M unit :=
  match calls with
  | [] => mret tt
  | (e, args) :: rest => stats_view key args e;; run_calls key rest
  end.

Fixpoint ok_answers (key : string)
    (calls : list (stats_endpoint * list (string * string))) (w : World) : nat :=
  match calls with
  | [] => 0
  | (e, args) :: rest =>
      (if answered_200 w (stats_request key args e) then 1 else 0)
      + ok_answers key rest (after (stats_view key args e) w)
  end.

(** The keys of a query string. *)
Definition arg_names (args : list (string * string)) : list string :=
  map fst args.

(** A 200 answer whose body is not JSON, and the same on a world. *)
Definition garbled_outcome : NetResult :=
  Returned {| status_code := 200; json_result := inl "Expecting value" |}.

Definition garbled_world : World := sample_world jan31 garbled_outcome empty_usage.

(** A calendar that turns from 31 January to 1 February after the twelve
    readings of three counted calls. *)
Definition turning_world : World :=
  {| usage_data := empty_usage;
     clock := λ t, if (t <? 12)%nat then jan31 else feb01;
     clock_reads := 0;
     upstream := λ _ _, ok_outcome; sent := [] |}.

(** An upstream that answers 200 to its first and third call and 404 to
    the others. *)
Definition flaky_world : World :=
  {| usage_data := empty_usage; clock := λ _, jan31; clock_reads := 0;
     upstream := λ n _, if bool_decide (n = 0 ∨ n = 2)%nat
                        then ok_outcome else not_found_outcome;
     sent := [] |}.

(** A query string with two seasons and another argument. *)
Definition sample_args : list (string * string) :=
  [("team", "Duke"); ("season", "2025"); ("season", "2024")].

(** ** Running the ledger operations *)

Lemma get_usage_stats_run (w : World) :
  get_usage_stats w =
    (stats_of (isoformat (clock w (clock_reads w)))
              (strftime_Ym (clock w (S (clock_reads w)))) (usage_data w),
     advance 2 (usage_data w) w).
Proof. reflexivity. Qed.

Lemma increment_usage_run (w : World) :
  let u' := bump (isoformat (clock w (clock_reads w)))
                 (strftime_Ym (clock w (S (clock_reads w)))) (usage_data w) in
  increment_usage w =
    (stats_of (isoformat (clock w (2 + clock_reads w)))
              (strftime_Ym (clock w (3 + clock_reads w))) u',
     advance 4 u' w).
Proof. reflexivity. Qed.

Lemma month_of_isoformat (d : date) :
  month_of_day_key (isoformat d) = strftime_Ym d.
Proof. reflexivity. Qed.

Lemma dict_get_insert_eq (d : gmap string Z) (k : string) (v x : Z) :
  dict_get (<[k := v]> d) k x = v.
Proof. unfold dict_get. by rewrite lookup_insert_eq. Qed.

Lemma dict_get_insert_ne (d : gmap string Z) (k k' : string) (v x : Z) :
  k ≠ k' → dict_get (<[k := v]> d) k' x = dict_get d k' x.
Proof. intros Hne. unfold dict_get. by rewrite lookup_insert_ne. Qed.

Lemma dict_get_None (d : gmap string Z) (k : string) (x : Z) :
  d !! k = None → dict_get d k x = x.
Proof. intros H. unfold dict_get. by rewrite H. Qed.

Lemma dict_get_default (d : gmap string Z) (k : string) (x : Z) :
  dict_get d k x = default x (d !! k).
Proof. unfold dict_get. by destruct (d !! k). Qed.

Lemma day_key_is_increment (k : string) (w : World) :
  day_key_is k w → day_key_is k (after increment_usage w).
Proof. intros H t Ht. apply H. simpl in Ht. lia. Qed.

(** One increment under a steady day-key adds one to that day's count. *)
Lemma increment_usage_today (k : string) (w : World) :
  day_key_is k w →
  dict_get (daily (usage_data (after increment_usage w))) k 0
  = dict_get (daily (usage_data w)) k 0 + 1.
Proof.
  intros H. unfold after. rewrite increment_usage_run. simpl.
  rewrite (H (clock_reads w)) by lia. apply dict_get_insert_eq.
Qed.

Lemma times_S {A} (n : nat) (m : M A) (w : World) :
  after (times (S n) m) w = after (times n m) (after m w).
Proof. unfold after. simpl. unfold mbind, world_bind. by destruct (m w). Qed.

Lemma times_increment_today (k : string) (N : nat) :
  ∀ w, day_key_is k w →
    dict_get (daily (usage_data (after (times N increment_usage) w))) k 0
    = dict_get (daily (usage_data w)) k 0 + Z.of_nat N.
Proof.
  induction N as [|N IH]; intros w H.
  - change (after (times 0 increment_usage) w) with w. lia.
  - rewrite times_S, IH by (by apply day_key_is_increment).
    rewrite increment_usage_today by done. lia.
Qed.

Lemma times_increment_day_key (k : string) (N : nat) :
  ∀ w, day_key_is k w → day_key_is k (after (times N increment_usage) w).
Proof.
  induction N as [|N IH]; intros w H; [done|].
  rewrite times_S. by apply IH, day_key_is_increment.
Qed.

Lemma get_usage_stats_today (k : string) (w : World) :
  day_key_is k w →
  today (result get_usage_stats w) = dict_get (daily (usage_data w)) k 0.
Proof.
  intros H. unfold result. rewrite get_usage_stats_run. simpl.
  by rewrite (H (clock_reads w)) by lia.
Qed.

(** ** Running the views *)

Lemma result_seq {A B} (m : M A) (k : M B) (w : World) :
  result (m;; k) w = result k (after m w).
Proof. unfold result, after, mbind, world_bind. by destruct (m w). Qed.

(** A statistics view with its key configured: one outbound call, then the
    three ways out. *)
Lemma stats_view_run (key : string) (args : list (string * string))
    (e : stats_endpoint) (w : World) :
  key ≠ EmptyString →
  stats_view key args e w =
    let w1 := after (requests_get (stats_request key args e)) w in
    match next_outcome w (stats_request key args e) with
    | Raised msg => ({| resp_body := error_body msg; resp_status := 500 |}, w1)
    | Returned response =>
        if bool_decide (status_code response = 200) then
          (match json_result response with
           | inl msg => {| resp_body := error_body msg; resp_status := 500 |}
           | inr body => {| resp_body := body; resp_status := 200 |}
           end, after increment_usage w1)
        else
          ({| resp_body := error_body ("API returned " +:+ pretty (status_code response));
              resp_status := status_code response |}, w1)
    end.
Proof.
  intros Hkey. destruct key as [|c key]; [done|].
  destruct e; unfold next_outcome; simpl;
    unfold get_ratings, get_games, get_teams, mbind, world_bind, requests_get; simpl;
    (destruct (upstream w _ _) as [msg|response]; [done|]);
    (case_bool_decide; [|done]);
    by destruct (json_result response).
Qed.

(** The odds view with its key configured. *)
Lemma get_odds_run (key : string) (w : World) :
  key ≠ EmptyString →
  get_odds key w =
    (match next_outcome w (odds_request key) with
     | Raised msg => {| resp_body := error_body msg; resp_status := 500 |}
     | Returned response =>
         match json_result response with
         | inl msg => {| resp_body := error_body msg; resp_status := 500 |}
         | inr body =>
             {| resp_body := body;
                resp_status := if bool_decide (status_code response = 200)
                               then 200 else status_code response |}
         end
     end, after (requests_get (odds_request key)) w).
Proof.
  intros Hkey. destruct key as [|c key]; [done|].
  unfold next_outcome, get_odds, mbind, world_bind, requests_get; simpl.
  destruct (upstream w _ _) as [msg|response]; [done|].
  case_bool_decide; by destruct (json_result response).
Qed.

Lemma answers_200_next (w : World) (r : HttpRequest) :
  answers_200 w →
  ∃ response, next_outcome w r = Returned response ∧ status_code response = 200.
Proof. intros H. apply H. Qed.

(** A successful call of a statistics view leaves the world one
    [increment_usage] after the outbound call. *)
Lemma stats_view_ok (key : string) (args : list (string * string))
    (e : stats_endpoint) (w : World) (response : Response) :
  key ≠ EmptyString →
  next_outcome w (stats_request key args e) = Returned response →
  status_code response = 200 →
  after (stats_view key args e) w
  = after increment_usage (after (requests_get (stats_request key args e)) w).
Proof.
  intros Hkey Hout Hst. unfold after at 1.
  rewrite stats_view_run, Hout by done. simpl.
  by rewrite bool_decide_eq_true_2.
Qed.

(** What such a call does under a steady clock and an upstream that always
    answers 200. *)
Lemma stats_view_ok_steady (key : string) (args : list (string * string))
    (e : stats_endpoint) (D : date) (w : World) :
  key ≠ EmptyString → clock_at D w → answers_200 w →
  let w' := after (stats_view key args e) w in
  clock_at D w' ∧ answers_200 w' ∧
  usage_data w' = bump (isoformat D) (strftime_Ym D) (usage_data w).
Proof.
  intros Hkey Hclock Hup.
  destruct (answers_200_next w (stats_request key args e) Hup) as (resp & Hout & Hst).
  simpl. rewrite (stats_view_ok _ _ _ _ _ Hkey Hout Hst).
  split; [|split].
  - intros t Ht. apply Hclock. simpl in Ht. lia.
  - exact Hup.
  - unfold after. rewrite increment_usage_run. simpl.
    by rewrite !Hclock by lia.
Qed.

Lemma usage_steady (D : date) (w : World) :
  clock_at D w →
  result usage w
  = {| resp_body := stats_body (stats_of (isoformat D) (strftime_Ym D) (usage_data w));
       resp_status := 200 |}.
Proof.
  intros Hclock. unfold result, usage, mbind, world_bind.
  rewrite get_usage_stats_run. simpl. by rewrite !Hclock by lia.
Qed.

(** ** The ledger *)

(** C1: after N calls of [increment_usage] on one day-key, starting from a
    ledger with no entry for that key, [get_usage_stats] on the same day
    reports [today = N]; and three successful calls of the ratings view
    from the empty ledger followed by the usage view give
    today 3, todayRemaining 97, month 3, dailyLimit 100. *)
Theorem increments_are_counted :
  (∀ (N : nat) (k : string) (w : World),
      day_key_is k w →
      daily (usage_data w) !! k = None →
      today (result get_usage_stats (after (times N increment_usage) w))
      = Z.of_nat N)
  ∧
  (∀ (key : string) (a1 a2 a3 : list (string * string)) (D : date) (w : World),
      key ≠ EmptyString →
      usage_data w = empty_usage →
      clock_at D w →
      answers_200 w →
      result (get_ratings key a1;; get_ratings key a2;; get_ratings key a3;; usage) w
      = {| resp_body := stats_body {| today := 3; todayRemaining := 97;
                                      month := 3; dailyLimit := 100 |};
           resp_status := 200 |}).
Proof.
  split.
  - intros N k w Hk Hnone.
    rewrite (get_usage_stats_today k) by (by apply times_increment_day_key).
    rewrite times_increment_today by done.
    rewrite dict_get_None by done. lia.
  - intros key a1 a2 a3 D w Hkey Hempty Hclock Hup.
    destruct (stats_view_ok_steady key a1 Ratings D w Hkey Hclock Hup)
      as (Hc1 & Hu1 & E1).
    destruct (stats_view_ok_steady key a2 Ratings D _ Hkey Hc1 Hu1)
      as (Hc2 & Hu2 & E2).
    destruct (stats_view_ok_steady key a3 Ratings D _ Hkey Hc2 Hu2)
      as (Hc3 & Hu3 & E3).
    simpl in *.
    rewrite !result_seq, (usage_steady D) by done.
    rewrite E3, E2, E1, Hempty.
    unfold stats_of, bump; simpl.
    by rewrite !dict_get_insert_eq.
Qed.

(** C2: in every ledger state, also one whose count for the current day is
    above the limit, [get_usage_stats] reports
    [todayRemaining = max(0, dailyLimit - today)], where [today] is the count
    stored under the current day-key, or 0 when the key is absent. *)
Theorem remaining_is_floored (w : World) :
  let s := result get_usage_stats w in
  let k := isoformat (clock w (clock_reads w)) in
  today s = default 0 (daily (usage_data w) !! k)
  ∧ dailyLimit s = 100
  ∧ todayRemaining s = Z.max 0 (dailyLimit s - today s)
  ∧ (dailyLimit s < today s → todayRemaining s = 0).
Proof.
  unfold result. rewrite get_usage_stats_run. simpl.
  split; [|split; [|split]].
  - apply dict_get_default.
  - reflexivity.
  - reflexivity.
  - unfold DAILY_LIMIT. lia.
Qed.

(** C3: one call of [increment_usage] adds 1 to the daily count under the
    current day-key and to the monthly count under the current month-key,
    creating either with value 1 when absent, touches no other key, and
    returns what [get_usage_stats] returns right after the two writes. *)
Theorem increment_usage_spec (w : World) :
  let tk := isoformat (clock w (clock_reads w)) in
  let mk := strftime_Ym (clock w (S (clock_reads w))) in
  let u := usage_data w in
  let u' := usage_data (after increment_usage w) in
  daily u' !! tk = Some (match daily u !! tk with Some n => n + 1 | None => 1 end)
  ∧ monthly u' !! mk = Some (match monthly u !! mk with Some n => n + 1 | None => 1 end)
  ∧ (∀ k, k ≠ tk → daily u' !! k = daily u !! k)
  ∧ (∀ k, k ≠ mk → monthly u' !! k = monthly u !! k)
  ∧ increment_usage w = get_usage_stats (advance 2 u' w).
Proof.
  unfold after. rewrite increment_usage_run. simpl.
  repeat split.
  - rewrite lookup_insert_eq. unfold dict_get. by destruct (_ !! _).
  - rewrite lookup_insert_eq. unfold dict_get. by destruct (_ !! _).
  - intros k Hk. by rewrite lookup_insert_ne.
  - intros k Hk. by rewrite lookup_insert_ne.
Qed.

(** C9: [get_usage_stats] leaves both maps of the ledger as they were, and
    two calls in a row under the same clock reading return the same
    record. *)
Theorem get_usage_stats_reads_only (w : World) (D : date) :
  usage_data (after get_usage_stats w) = usage_data w
  ∧ (clock_at D w →
     result get_usage_stats (after get_usage_stats w) = result get_usage_stats w).
Proof.
  split; [reflexivity|].
  intros Hclock. unfold result, after. rewrite !get_usage_stats_run. simpl.
  by rewrite !Hclock by lia.
Qed.

(** C8: once the calendar has moved on to a day [D'] under which nothing has
    been counted yet, [get_usage_stats] reports [today = 0]; the count stored
    under the earlier day [D] stays as it was, and when both days lie in
    the same month the month count reported is the one accumulated so far. *)
Theorem day_rollover (w : World) (D D' : date) :
  clock_at D' w →
  daily (usage_data w) !! isoformat D' = None →
  let s := result get_usage_stats w in
  let w' := after get_usage_stats w in
  today s = 0
  ∧ daily (usage_data w') !! isoformat D = daily (usage_data w) !! isoformat D
  ∧ monthly (usage_data w') = monthly (usage_data w)
  ∧ (strftime_Ym D' = strftime_Ym D →
     month s = default 0 (monthly (usage_data w) !! strftime_Ym D)).
Proof.
  intros Hclock Hnone. unfold result, after. rewrite get_usage_stats_run. simpl.
  rewrite !Hclock by lia. repeat split.
  - by apply dict_get_None.
  - intros E. rewrite E. apply dict_get_default.
Qed.

(** ** The invariant of the ledger *)

Lemma month_total_insert (mk k : string) (v : Z) (d : gmap string Z) :
  month_total mk (<[k := v]> d)
  = month_total mk d
    + (if bool_decide (month_of_day_key k = mk) then v - dict_get d k 0 else 0).
Proof.
  unfold month_total.
  set (f := λ (k : string) (v acc : Z),
              if bool_decide (month_of_day_key k = mk) then v + acc else acc).
  assert (Hcomm : ∀ j1 j2 z1 z2 y, f j1 z1 (f j2 z2 y) = f j2 z2 (f j1 z1 y)).
  { intros. unfold f. repeat case_bool_decide; lia. }
  destruct (d !! k) as [x|] eqn:Hk.
  - rewrite <- (insert_delete_eq d k v).
    rewrite <- (insert_delete_id d k x Hk) at 2.
    rewrite !map_fold_insert_L
      by first [apply lookup_delete_eq | intros; apply Hcomm].
    unfold f, dict_get. rewrite Hk. case_bool_decide; lia.
  - rewrite map_fold_insert_L by first [done | intros; apply Hcomm].
    unfold f, dict_get. rewrite Hk. case_bool_decide; lia.
Qed.

Lemma dict_get_nonneg (d : gmap string Z) (k : string) :
  (∀ k v, d !! k = Some v → 1 ≤ v) → 0 ≤ dict_get d k 0.
Proof.
  intros H. unfold dict_get. destruct (d !! k) as [v|] eqn:E; [|lia].
  specialize (H k v E). lia.
Qed.

Lemma insert_keeps_positive (d : gmap string Z) (k : string) :
  (∀ k v, d !! k = Some v → 1 ≤ v) →
  ∀ k' v, <[k := dict_get d k 0 + 1]> d !! k' = Some v → 1 ≤ v.
Proof.
  intros H k' v. pose proof (dict_get_nonneg d k H).
  destruct (decide (k = k')) as [->|Hne].
  - rewrite lookup_insert_eq. intros [= <-]. lia.
  - rewrite lookup_insert_ne by done. apply H.
Qed.

(** The invariant in the form that goes through the induction: the monthly
    count read with default 0 is the month's total, for every month-key. *)
Lemma reachable_totals (u : UsageData) :
  reachable u →
  (∀ k v, daily u !! k = Some v → 1 ≤ v)
  ∧ (∀ k v, monthly u !! k = Some v → 1 ≤ v)
  ∧ (∀ mk, dict_get (monthly u) mk 0 = month_total mk (daily u)).
Proof.
  induction 1 as [|w Hreach (Hd & Hm & Htot) Hsame].
  - repeat split; try (intros k v; simpl; by rewrite lookup_empty).
  - unfold after. rewrite increment_usage_run. simpl. rewrite Hsame.
    set (d := clock w (clock_reads w)).
    split; [by apply insert_keeps_positive|].
    split; [by apply insert_keeps_positive|].
    intros mk. rewrite month_total_insert, month_of_isoformat.
    case_bool_decide as E.
    + subst mk. rewrite dict_get_insert_eq, Htot. lia.
    + rewrite dict_get_insert_ne, Htot by done. lia.
Qed.

(** C10: in every ledger reachable from the empty one by calls of
    [increment_usage] whose two clock readings agree, each stored daily or
    monthly count is at least 1, and the count stored under a month-key is
    the sum of the daily counts over the day-keys of that month. *)
Theorem reachable_ledger_invariant (u : UsageData) :
  reachable u →
  (∀ k v, daily u !! k = Some v → 1 ≤ v)
  ∧ (∀ mk v, monthly u !! mk = Some v → 1 ≤ v)
  ∧ (∀ mk v, monthly u !! mk = Some v → v = month_total mk (daily u)).
Proof.
  intros Hreach. destruct (reachable_totals u Hreach) as (Hd & Hm & Htot).
  split; [done|]. split; [done|].
  intros mk v Hv. rewrite <- Htot. unfold dict_get. by rewrite Hv.
Qed.

(** ** The views and the ledger *)

(** C4: a statistics view (ratings, games, teams) whose upstream call
    answers 200 runs [increment_usage] exactly once before it replies; on a
    non-200 answer or an exception of the call it replies with the error
    and leaves the ledger as it was. *)
Theorem counted_on_200_only (key : string) (args : list (string * string))
    (e : stats_endpoint) (w : World) :
  key ≠ EmptyString →
  let view := stats_view key args e in
  let r := stats_request key args e in
  (∀ response,
      next_outcome w r = Returned response → status_code response = 200 →
      after view w = after increment_usage (after (requests_get r) w)
      ∧ usage_data (after view w) = usage_data (after increment_usage w))
  ∧ (∀ response,
      next_outcome w r = Returned response → status_code response ≠ 200 →
      usage_data (after view w) = usage_data w
      ∧ result view w
        = {| resp_body := error_body ("API returned " +:+ pretty (status_code response));
             resp_status := status_code response |})
  ∧ (∀ msg,
      next_outcome w r = Raised msg →
      usage_data (after view w) = usage_data w
      ∧ result view w = {| resp_body := error_body msg; resp_status := 500 |}).
Proof.
  intros Hkey view r. subst view r. split; [|split].
  - intros response Hout Hst.
    by rewrite (stats_view_ok _ _ _ _ _ Hkey Hout Hst).
  - intros response Hout Hst. unfold after, result.
    rewrite stats_view_run, Hout by done. simpl.
    by rewrite bool_decide_eq_false_2.
  - intros msg Hout. unfold after, result.
    by rewrite stats_view_run, Hout by done.
Qed.

(** C5, as the code has it, with the key set: on a non-200 answer whose body
    is JSON the odds view replies with the upstream's status and that body,
    while a statistics view replies to every non-200 answer with the
    upstream's status and the body [{"error": "API returned <code>"}],
    whatever the upstream's body is. *)
Theorem upstream_error_reply (key : string) (args : list (string * string))
    (e : stats_endpoint) (w : World) (response : Response) :
  key ≠ EmptyString →
  status_code response ≠ 200 →
  (next_outcome w (odds_request key) = Returned response →
   ∀ body, json_result response = inr body →
     result (get_odds key) w
     = {| resp_body := body; resp_status := status_code response |})
  ∧ (next_outcome w (stats_request key args e) = Returned response →
     result (stats_view key args e) w
     = {| resp_body := error_body ("API returned " +:+ pretty (status_code response));
          resp_status := status_code response |}).
Proof.
  intros Hkey Hst. split.
  - intros Hout body Hbody. unfold result.
    rewrite get_odds_run, Hout, Hbody by done. simpl.
    by rewrite bool_decide_eq_false_2.
  - intros Hout. unfold result.
    rewrite stats_view_run, Hout by done. simpl.
    by rewrite bool_decide_eq_false_2.
Qed.

(** C5 as written fails: the teams view, given a 404 with a JSON body,
    replies 404 with the synthesized body and not with the upstream's. *)
Lemma teams_404_body_not_forwarded :
  next_outcome not_found_world (stats_request "k" [] Teams)
  = Returned {| status_code := 404; json_result := inr not_found_body |}
  ∧ result (get_teams "k") not_found_world
    = {| resp_body := JObj [("error", JStr "API returned 404")]; resp_status := 404 |}
  ∧ ¬ forwards_upstream_error (get_teams "k") (stats_request "k" [] Teams).
Proof.
  split; [reflexivity|]. split; [by vm_compute|].
  intros H.
  specialize (H not_found_world _ not_found_body eq_refl).
  simpl in H. specialize (H ltac:(lia) eq_refl).
  vm_compute in H. discriminate H.
Qed.

(** C6: with its credential empty a view replies 500 with
    ["<KEY> not configured"] and leaves the whole world as it was: no
    outbound call, no change to the ledger. *)
Theorem missing_key_short_circuits (args : list (string * string))
    (e : stats_endpoint) (w : World) :
  get_odds EmptyString w
  = ({| resp_body := JObj [("error", JStr "ODDS_API_KEY not configured")];
        resp_status := 500 |}, w)
  ∧ stats_view EmptyString args e w
    = ({| resp_body := JObj [("error", JStr "CBBD_API_KEY not configured")];
          resp_status := 500 |}, w).
Proof. split; [reflexivity|]. by destruct e. Qed.

(** C7: whatever the upstream does (200, another status, an exception) and
    whatever the key, the odds view leaves the ledger as it was. *)
Theorem odds_never_counted (key : string) (w : World) :
  usage_data (after (get_odds key) w) = usage_data w
  ∧ clock_reads (after (get_odds key) w) = clock_reads w.
Proof.
  destruct key as [|c key]; [done|].
  unfold after. by rewrite get_odds_run.
Qed.

(** ** The theorems at sample inputs *)

Lemma sample_clock (D : date) (o : NetResult) (u : UsageData) :
  clock_at D (sample_world D o u).
Proof. intros t _. reflexivity. Defined.

Lemma increments_are_counted_witness :
  (day_key_is "2026-01-31" ok_world
   ∧ daily (usage_data ok_world) !! "2026-01-31" = None
   ∧ today (result get_usage_stats (after (times 5 increment_usage) ok_world)) = 5)
  ∧ ("k" ≠ EmptyString
     ∧ usage_data ok_world = empty_usage
     ∧ clock_at jan31 ok_world
     ∧ answers_200 ok_world
     ∧ result (get_ratings "k" [];; get_ratings "k" [("season", "2025")];;
               get_ratings "k" [];; usage) ok_world
       = {| resp_body := JObj [("today", JNum 3); ("todayRemaining", JNum 97);
                               ("month", JNum 3); ("dailyLimit", JNum 100)];
            resp_status := 200 |}).
Proof.
  assert (Hday : day_key_is "2026-01-31" ok_world) by (intros t _; reflexivity).
  assert (Hnone : daily (usage_data ok_world) !! "2026-01-31" = None) by reflexivity.
  assert (Hkey : "k" ≠ EmptyString) by discriminate.
  assert (Hup : answers_200 ok_world) by (intros n r; eexists; split; reflexivity).
  destruct increments_are_counted as [Hn Hscenario].
  split.
  - split; [exact Hday|]. split; [exact Hnone|].
    exact (Hn 5%nat "2026-01-31" ok_world Hday Hnone).
  - split; [exact Hkey|]. split; [reflexivity|].
    split; [apply sample_clock|]. split; [exact Hup|].
    exact (Hscenario "k" [] [("season", "2025")] [] jan31 ok_world
             Hkey eq_refl (sample_clock _ _ _) Hup).
Defined.

Lemma remaining_is_floored_witness :
  dailyLimit (result get_usage_stats over_limit_world)
    < today (result get_usage_stats over_limit_world)
  ∧ todayRemaining (result get_usage_stats over_limit_world) = 0.
Proof.
  assert (Hover : dailyLimit (result get_usage_stats over_limit_world)
                  < today (result get_usage_stats over_limit_world))
    by (vm_compute; reflexivity).
  split; [exact Hover|].
  destruct (remaining_is_floored over_limit_world) as (_ & _ & _ & Hzero).
  exact (Hzero Hover).
Defined.

Lemma counted_on_200_only_witness :
  "k" ≠ EmptyString
  ∧ daily (usage_data (after (get_ratings "k" []) ok_world)) !! "2026-01-31" = Some 1
  ∧ usage_data (after (get_teams "k") not_found_world) = usage_data not_found_world
  ∧ result (get_games "k" []) timeout_world
    = {| resp_body := JObj [("error", JStr "Read timed out.")]; resp_status := 500 |}.
Proof.
  assert (Hkey : "k" ≠ EmptyString) by discriminate.
  split; [exact Hkey|].
  destruct (counted_on_200_only "k" [] Ratings ok_world Hkey) as (Hok & _ & _).
  destruct (counted_on_200_only "k" [] Teams not_found_world Hkey) as (_ & Herr & _).
  destruct (counted_on_200_only "k" [] Games timeout_world Hkey) as (_ & _ & Hexn).
  split; [|split].
  - destruct (Hok _ eq_refl eq_refl) as [_ Hledger].
    change (get_ratings "k" []) with (stats_view "k" [] Ratings).
    rewrite Hledger. reflexivity.
  - apply (Herr _ eq_refl). vm_compute. discriminate.
  - apply (Hexn _ eq_refl).
Defined.

Lemma upstream_error_reply_witness :
  "k" ≠ EmptyString
  ∧ result (get_odds "k") not_found_world
    = {| resp_body := not_found_body; resp_status := 404 |}
  ∧ result (get_teams "k") not_found_world
    = {| resp_body := JObj [("error", JStr "API returned 404")]; resp_status := 404 |}.
Proof.
  assert (Hkey : "k" ≠ EmptyString) by discriminate.
  assert (Hst : (404 : Z) ≠ 200) by lia.
  destruct (upstream_error_reply "k" [] Teams not_found_world
              {| status_code := 404; json_result := inr not_found_body |} Hkey Hst)
    as [Hodds Hteams].
  split; [exact Hkey|]. split.
  - exact (Hodds eq_refl not_found_body eq_refl).
  - exact (Hteams eq_refl).
Defined.

Lemma rollover_clock (D D' : date) : clock_at D' (rollover_world D D').
Proof.
  intros t Ht.
  change (clock_reads (rollover_world D D')) with 8%nat in Ht.
  change (clock (rollover_world D D') t) with (if (t <? 8)%nat then D else D').
  destruct (Nat.ltb_spec t 8) as [Hlt|Hge]; [lia|reflexivity].
Defined.

Lemma day_rollover_witness :
  (clock_at feb01 (rollover_world jan31 feb01)
   ∧ daily (usage_data (rollover_world jan31 feb01)) !! isoformat feb01 = None
   ∧ today (result get_usage_stats (rollover_world jan31 feb01)) = 0
   ∧ daily (usage_data (after get_usage_stats (rollover_world jan31 feb01)))
       !! "2026-01-31" = Some 2)
  ∧ (strftime_Ym jan31 = strftime_Ym jan30
     ∧ today (result get_usage_stats (rollover_world jan30 jan31)) = 0
     ∧ month (result get_usage_stats (rollover_world jan30 jan31)) = 2).
Proof.
  split.
  - destruct (day_rollover (rollover_world jan31 feb01) jan31 feb01
                (rollover_clock _ _) eq_refl) as (Htoday & Hkept & _ & _).
    split; [apply rollover_clock|]. split; [reflexivity|].
    split; [exact Htoday|]. exact (eq_trans Hkept eq_refl).
  - destruct (day_rollover (rollover_world jan30 jan31) jan30 jan31
                (rollover_clock _ _) eq_refl) as (Htoday & _ & _ & Hmonth).
    split; [reflexivity|]. split; [exact Htoday|].
    exact (eq_trans (Hmonth eq_refl) eq_refl).
Defined.

Lemma get_usage_stats_reads_only_witness :
  clock_at jan31 ok_world
  ∧ usage_data (after get_usage_stats ok_world) = usage_data ok_world
  ∧ result get_usage_stats (after get_usage_stats ok_world)
    = result get_usage_stats ok_world.
Proof.
  destruct (get_usage_stats_reads_only ok_world jan31) as [Hsame Hagain].
  split; [apply sample_clock|]. split; [exact Hsame|].
  exact (Hagain (sample_clock _ _ _)).
Defined.

Lemma two_calls_reachable : reachable two_calls_ledger.
Proof.
  exact (reachable_increment (after increment_usage ok_world)
           (reachable_increment ok_world reachable_start eq_refl) eq_refl).
Defined.

Lemma reachable_ledger_invariant_witness :
  reachable two_calls_ledger
  ∧ monthly two_calls_ledger !! "2026-01" = Some 2
  ∧ 2 = month_total "2026-01" (daily two_calls_ledger).
Proof.
  destruct (reachable_ledger_invariant two_calls_ledger two_calls_reachable)
    as (_ & _ & Htotal).
  split; [exact two_calls_reachable|]. split; [reflexivity|].
  exact (Htotal "2026-01" 2 eq_refl).
Defined.

(** ** The two read-only views *)

(** X1: the health and usage views answer 200 whatever the keys and the
    upstream are, make no outbound call and leave the ledger as it was; the
    [usage] field of the health reply is the body of the usage reply. *)
Theorem health_and_usage_read_only (w : World) :
  resp_status (result health w) = 200
  ∧ resp_status (result usage w) = 200
  ∧ resp_body (result health w)
    = JObj [("status", JStr "ok"); ("service", JStr "CBB Edge Finder Proxy");
            ("usage", resp_body (result usage w))]
  ∧ sent (after health w) = sent w ∧ sent (after usage w) = sent w
  ∧ usage_data (after health w) = usage_data w
  ∧ usage_data (after usage w) = usage_data w.
Proof. repeat split. Qed.

(** ** Replies of the proxies *)

(** X2: with the key set, a 200 answer with a JSON body is passed through by
    each of the four proxies: the reply is that body, with status 200. *)
Theorem success_passes_body_through (key : string) (args : list (string * string))
    (e : stats_endpoint) (w : World) (response : Response) (body : json) :
  key ≠ EmptyString →
  status_code response = 200 →
  json_result response = inr body →
  (next_outcome w (odds_request key) = Returned response →
   result (get_odds key) w = {| resp_body := body; resp_status := 200 |})
  ∧ (next_outcome w (stats_request key args e) = Returned response →
     result (stats_view key args e) w = {| resp_body := body; resp_status := 200 |}).
Proof.
  intros Hkey Hst Hbody. split; intros Hout; unfold result.
  - rewrite get_odds_run, Hout, Hbody by done. simpl.
    by rewrite bool_decide_eq_true_2.
  - rewrite stats_view_run, Hout by done. simpl.
    by rewrite bool_decide_eq_true_2, Hbody.
Qed.

(** X3: with the key set, a proxy replies 200 only when its upstream call
    was answered 200 with a JSON body, which is then the body of the reply. *)
Theorem reply_200_means_upstream_200 (key : string) (args : list (string * string))
    (e : stats_endpoint) (w : World) :
  key ≠ EmptyString →
  (resp_status (result (get_odds key) w) = 200 →
   ∃ response,
     next_outcome w (odds_request key) = Returned response
     ∧ status_code response = 200
     ∧ json_result response = inr (resp_body (result (get_odds key) w)))
  ∧ (resp_status (result (stats_view key args e) w) = 200 →
     ∃ response,
       next_outcome w (stats_request key args e) = Returned response
       ∧ status_code response = 200
       ∧ json_result response = inr (resp_body (result (stats_view key args e) w))
       ∧ usage_data (after (stats_view key args e) w)
         = usage_data (after increment_usage w)).
Proof.
  intros Hkey. split; unfold result, after.
  - rewrite get_odds_run by done. simpl.
    destruct (next_outcome w (odds_request key)) as [msg|response]; [done|].
    destruct (json_result response) as [msg|body] eqn:Hbody; [done|]. simpl.
    case_bool_decide as Hst; [|done]. intros _. by exists response.
  - rewrite stats_view_run by done. simpl.
    destruct (next_outcome w (stats_request key args e)) as [msg|response]; [done|].
    case_bool_decide as Hst; [|done]. simpl.
    destruct (json_result response) as [msg|body] eqn:Hbody; [done|].
    intros _. by exists response.
Qed.

(** X4: with the key set, a statistics view whose upstream answers 200 with
    a body that is not JSON replies 500 with the text of the decoding error,
    after it has counted the call. *)
Theorem undecodable_200_is_counted (key : string) (args : list (string * string))
    (e : stats_endpoint) (w : World) (response : Response) (msg : string) :
  key ≠ EmptyString →
  next_outcome w (stats_request key args e) = Returned response →
  status_code response = 200 →
  json_result response = inl msg →
  result (stats_view key args e) w
  = {| resp_body := JObj [("error", JStr msg)]; resp_status := 500 |}
  ∧ usage_data (after (stats_view key args e) w)
    = usage_data (after increment_usage w).
Proof.
  intros Hkey Hout Hst Hbody. unfold result, after.
  rewrite stats_view_run, Hout by done. simpl.
  by rewrite bool_decide_eq_true_2, Hbody.
Qed.

(** X5: with the key set, the odds view replies 500 with the text of the
    exception when the call raises, and when the answer, whatever its
    status, has a body that is not JSON. *)
Theorem odds_failures_are_500 (key : string) (w : World) :
  key ≠ EmptyString →
  (∀ msg, next_outcome w (odds_request key) = Raised msg →
     result (get_odds key) w
     = {| resp_body := JObj [("error", JStr msg)]; resp_status := 500 |})
  ∧ (∀ response msg,
       next_outcome w (odds_request key) = Returned response →
       json_result response = inl msg →
       result (get_odds key) w
       = {| resp_body := JObj [("error", JStr msg)]; resp_status := 500 |}).
Proof.
  intros Hkey. split.
  - intros msg Hout. unfold result. by rewrite get_odds_run, Hout by done.
  - intros response msg Hout Hbody. unfold result.
    by rewrite get_odds_run, Hout, Hbody by done.
Qed.

(** ** The outbound call *)

(** X6: with the key set, each proxy makes exactly one outbound call, with a
    timeout of 30.  The odds call carries the key as the [apiKey] query
    parameter and no headers; a statistics call carries it as a bearer token
    in the [Authorization] header and never among the query parameters. *)
Theorem one_outbound_call (key : string) (args : list (string * string))
    (e : stats_endpoint) (w : World) :
  key ≠ EmptyString →
  (∃ r, sent (after (get_odds key) w) = (sent w ++ [r])%list
        ∧ req_timeout r = 30
        ∧ req_headers r = []
        ∧ (("apiKey", key) ∈ req_params r))
  ∧ (∃ r, sent (after (stats_view key args e) w) = (sent w ++ [r])%list
          ∧ req_timeout r = 30
          ∧ req_headers r = [("Authorization", "Bearer " +:+ key);
                             ("Content-Type", "application/json")]
          ∧ (∀ p, p ∈ req_params r → p = ("season", args_get args "season" "2026"))).
Proof.
  intros Hkey. split.
  - exists (odds_request key). unfold after. rewrite get_odds_run by done.
    repeat split. simpl. apply list_elem_of_here.
  - exists (stats_request key args e). unfold after.
    rewrite stats_view_run by done. simpl. split.
    + destruct (next_outcome w _) as [msg|response]; [done|].
      by case_bool_decide.
    + destruct e; repeat split; simpl; intros p Hp;
        try (apply list_elem_of_singleton in Hp; exact Hp);
        by apply not_elem_of_nil in Hp.
Qed.

Lemma args_get_absent (args : list (string * string)) (key default : string) :
  key ∉ arg_names args → args_get args key default = default.
Proof.
  induction args as [|[k v] args IH]; [done|]. simpl. intros Hnot.
  apply not_elem_of_cons in Hnot as [Hne Hnot].
  destruct (String.eqb_spec k key) as [->|_]; [done|]. by apply IH.
Qed.

(** X7: the ratings and games views use their query string for the season
    only: two query strings with the same season behave alike, and one
    without a season behaves as one asking for season 2026. *)
Theorem season_is_all_that_matters (key : string)
    (args args' : list (string * string)) :
  (args_get args "season" "2026" = args_get args' "season" "2026" →
   get_ratings key args = get_ratings key args'
   ∧ get_games key args = get_games key args')
  ∧ ("season" ∉ arg_names args →
     get_ratings key args = get_ratings key [("season", "2026")]
     ∧ get_games key args = get_games key [("season", "2026")]).
Proof.
  assert (Hsame : ∀ a a', args_get a "season" "2026" = args_get a' "season" "2026" →
            get_ratings key a = get_ratings key a' ∧ get_games key a = get_games key a').
  { intros a a' E. unfold get_ratings, get_games. by rewrite E. }
  split; [apply Hsame|].
  intros Hnot. apply Hsame.
  by rewrite args_get_absent.
Qed.

(** ** What one request does to the ledger *)

Lemma stats_view_ledger (key : string) (args : list (string * string))
    (e : stats_endpoint) (w : World) :
  usage_data (after (stats_view key args e) w) = usage_data w
  ∨ usage_data (after (stats_view key args e) w)
    = usage_data (after increment_usage w).
Proof.
  destruct key as [|c key]; [left; by destruct e|].
  unfold after. rewrite stats_view_run by done. simpl.
  destruct (next_outcome w _) as [msg|response]; [by left|].
  case_bool_decide; [right; reflexivity|left; reflexivity].
Qed.

Lemma get_odds_ledger (key : string) (w : World) :
  usage_data (after (get_odds key) w) = usage_data w.
Proof.
  destruct key as [|c key]; [done|]. unfold after. by rewrite get_odds_run.
Qed.

(** Every routed view leaves the ledger as it was or as one
    [increment_usage] makes it. *)
Lemma route_ledger (cbbd_key odds_key path : string)
    (args : list (string * string)) (view : M FlaskResponse) (w : World) :
  route cbbd_key odds_key path args = Some view →
  usage_data (after view w) = usage_data w
  ∨ usage_data (after view w) = usage_data (after increment_usage w).
Proof.
  unfold route. intros Hroute.
  repeat (destruct (String.eqb path _);
          [injection Hroute as <-;
           first [ by left
                 | left; apply get_odds_ledger
                 | apply (stats_view_ledger cbbd_key args Ratings)
                 | apply (stats_view_ledger cbbd_key args Games)
                 | apply (stats_view_ledger cbbd_key args Teams) ] |]).
  discriminate.
Qed.

Lemma insert_count_step (d : gmap string Z) (k k' : string) :
  dict_get d k' 0 ≤ dict_get (<[k := dict_get d k 0 + 1]> d) k' 0
                  ≤ dict_get d k' 0 + 1.
Proof.
  destruct (decide (k = k')) as [->|Hne].
  - rewrite dict_get_insert_eq. lia.
  - rewrite dict_get_insert_ne by done. lia.
Qed.

(** X8: a request to any registered path removes no key from the ledger
    and moves each daily and each monthly count up by 0 or by 1. *)
Theorem request_moves_ledger_forward (cbbd_key odds_key path : string)
    (args : list (string * string)) (view : M FlaskResponse) (w : World) :
  route cbbd_key odds_key path args = Some view →
  let u := usage_data w in
  let u' := usage_data (after view w) in
  dom (daily u) ⊆ dom (daily u')
  ∧ dom (monthly u) ⊆ dom (monthly u')
  ∧ (∀ k, dict_get (daily u) k 0 ≤ dict_get (daily u') k 0
                                 ≤ dict_get (daily u) k 0 + 1)
  ∧ (∀ k, dict_get (monthly u) k 0 ≤ dict_get (monthly u') k 0
                                   ≤ dict_get (monthly u) k 0 + 1).
Proof.
  intros Hroute u u'. subst u u'.
  destruct (route_ledger _ _ _ _ _ w Hroute) as [->| ->].
  - split; [done|]. split; [done|]. split; intros k; lia.
  - unfold after. rewrite increment_usage_run. simpl.
    split; [rewrite dom_insert; set_solver|].
    split; [rewrite dom_insert; set_solver|].
    split; intros k; apply insert_count_step.
Qed.

(** X9: the limit is reported, never enforced: what a statistics view
    replies and which outbound calls it makes do not depend on the ledger,
    however far above the limit the counts are. *)
Theorem quota_is_never_enforced (key : string) (args : list (string * string))
    (e : stats_endpoint) (w : World) (u : UsageData) :
  result (stats_view key args e) (with_ledger u w) = result (stats_view key args e) w
  ∧ sent (after (stats_view key args e) (with_ledger u w))
    = sent (after (stats_view key args e) w).
Proof.
  destruct key as [|c key]; [by destruct e|].
  unfold result, after. rewrite !stats_view_run by done.
  change (next_outcome (with_ledger u w) (stats_request (String c key) args e))
    with (next_outcome w (stats_request (String c key) args e)).
  simpl. destruct (next_outcome w _) as [msg|response]; [done|].
  by case_bool_decide.
Qed.

(** X10: under a steady clock [increment_usage] returns the counts it has
    just written: [today] and [month] are one more than before and
    [todayRemaining] is one less, unless it was 0 already. *)
Theorem increment_reports_new_counts (D : date) (w : World) :
  clock_at D w →
  let before := result get_usage_stats w in
  let s := result increment_usage w in
  today s = today before + 1
  ∧ month s = month before + 1
  ∧ todayRemaining s = Z.max 0 (todayRemaining before - 1)
  ∧ dailyLimit s = dailyLimit before.
Proof.
  intros Hclock. unfold result.
  rewrite increment_usage_run, get_usage_stats_run. simpl.
  rewrite !Hclock by lia. rewrite !dict_get_insert_eq.
  repeat split; lia.
Qed.

(** ** Bounds on what a reachable ledger reports *)

Lemma month_total_nonneg (mk : string) (d : gmap string Z) :
  (∀ k v, d !! k = Some v → 1 ≤ v) → 0 ≤ month_total mk d.
Proof.
  induction d as [|k v d Hk _ IH] using map_first_key_ind; intros Hpos.
  - done.
  - rewrite month_total_insert, (dict_get_None d k) by done.
    assert (1 ≤ v) by (apply (Hpos k); by rewrite lookup_insert_eq).
    assert (0 ≤ month_total mk d).
    { apply IH. intros k' v' Hk'. apply (Hpos k').
      rewrite lookup_insert_ne; [done|]. intros ->. congruence. }
    case_bool_decide; lia.
Qed.

Lemma day_within_month (mk k : string) (d : gmap string Z) :
  (∀ k v, d !! k = Some v → 1 ≤ v) →
  month_of_day_key k = mk →
  dict_get d k 0 ≤ month_total mk d.
Proof.
  intros Hpos Hmk. pose proof (month_total_nonneg mk d Hpos).
  destruct (d !! k) as [x|] eqn:Hk; [|by rewrite dict_get_None].
  assert (0 ≤ month_total mk (delete k d)).
  { apply month_total_nonneg. intros k' v' Hk'.
    apply lookup_delete_Some in Hk' as [_ Hk']. by apply (Hpos k'). }
  rewrite <- (insert_delete_id d k x Hk) at 2.
  rewrite month_total_insert, bool_decide_eq_true_2 by done.
  rewrite (dict_get_None (delete k d)) by apply lookup_delete_eq.
  unfold dict_get. rewrite Hk. lia.
Qed.

(** X11: on a reachable ledger [get_usage_stats] reports counts that are not
    negative and a [todayRemaining] between 0 and the limit, which adds up
    with [today] to the limit as long as the limit is not passed; when both
    keys come from the same date, [today] is at most [month]. *)
Theorem reachable_stats_bounds (w : World) :
  reachable (usage_data w) →
  let s := result get_usage_stats w in
  0 ≤ today s
  ∧ 0 ≤ month s
  ∧ 0 ≤ todayRemaining s ≤ dailyLimit s
  ∧ (today s ≤ dailyLimit s → today s + todayRemaining s = dailyLimit s)
  ∧ (clock w (S (clock_reads w)) = clock w (clock_reads w) → today s ≤ month s).
Proof.
  intros Hreach. destruct (reachable_totals _ Hreach) as (Hd & Hm & Htot).
  unfold result. rewrite get_usage_stats_run. simpl.
  pose proof (dict_get_nonneg (daily (usage_data w))
                (isoformat (clock w (clock_reads w))) Hd).
  pose proof (dict_get_nonneg (monthly (usage_data w))
                (strftime_Ym (clock w (S (clock_reads w)))) Hm).
  unfold DAILY_LIMIT.
  split; [assumption|]. split; [assumption|]. split; [lia|]. split; [lia|].
  intros ->. rewrite Htot. apply day_within_month; [done|].
  apply month_of_isoformat.
Qed.

(** ** The keys tell the dates apart *)

Lemma digit_inj (a b : nat) : digit a = digit b → (a mod 10 = b mod 10)%nat.
Proof.
  unfold digit. intros E. apply (f_equal nat_of_ascii) in E.
  pose proof (Nat.mod_upper_bound a 10). pose proof (Nat.mod_upper_bound b 10).
  rewrite !nat_ascii_embedding in E by lia. lia.
Qed.

Lemma string_cons_inj (c c' : ascii) (s s' : string) :
  String c s = String c' s' → c = c' ∧ s = s'.
Proof. intros E. by injection E. Qed.

Lemma pad2_inj (a b : nat) :
  (a < 100)%nat → (b < 100)%nat → pad2 a = pad2 b → a = b.
Proof.
  intros Ha Hb E. unfold pad2 in E.
  apply string_cons_inj in E as [E1 E]. apply string_cons_inj in E as [E2 _].
  apply digit_inj in E1, E2. zify. Z.to_euclidean_division_equations. lia.
Qed.

Lemma pad4_inj (a b : nat) :
  (a < 100 * 100)%nat → (b < 100 * 100)%nat → pad4 a = pad4 b → a = b.
Proof.
  intros Ha Hb E. unfold pad4 in E.
  apply string_cons_inj in E as [E1 E]. apply string_cons_inj in E as [E2 E].
  apply string_cons_inj in E as [E3 E]. apply string_cons_inj in E as [E4 _].
  apply digit_inj in E1, E2, E3, E4. zify. Z.to_euclidean_division_equations. lia.
Qed.

Lemma append_pad4_inj (a b : nat) (s s' : string) :
  pad4 a +:+ s = pad4 b +:+ s' → pad4 a = pad4 b ∧ s = s'.
Proof.
  unfold pad4. cbn [String.append]. intros E.
  repeat (apply string_cons_inj in E as [? E]). split; congruence.
Qed.

Lemma append_pad2_inj (a b : nat) (s s' : string) :
  pad2 a +:+ s = pad2 b +:+ s' → pad2 a = pad2 b ∧ s = s'.
Proof.
  unfold pad2. cbn [String.append]. intros E.
  repeat (apply string_cons_inj in E as [? E]). split; congruence.
Qed.

Lemma isoformat_inj (d d' : date) :
  date_in_range d → date_in_range d' → isoformat d = isoformat d' → d = d'.
Proof.
  destruct d as [y m a], d' as [y' m' a'].
  intros (Hy & Hm & Ha) (Hy' & Hm' & Ha').
  unfold isoformat. cbn [d_year d_month d_day] in *. intros E.
  apply append_pad4_inj in E as [Ey E].
  apply string_cons_inj in E as [_ E].
  apply append_pad2_inj in E as [Em E].
  apply string_cons_inj in E as [_ E].
  f_equal; [by apply pad4_inj|by apply pad2_inj..].
Qed.

Lemma strftime_Ym_inj (d d' : date) :
  date_in_range d → date_in_range d' → strftime_Ym d = strftime_Ym d' →
  d_year d = d_year d' ∧ d_month d = d_month d'.
Proof.
  intros (Hy & Hm & _) (Hy' & Hm' & _).
  unfold strftime_Ym. intros E.
  apply append_pad4_inj in E as [Ey E].
  apply string_cons_inj in E as [_ E].
  split; [by apply pad4_inj|by apply pad2_inj].
Qed.

(** X12: for dates in range, two dates have the same day-key only when they
    are the same date, and the same month-key exactly when they agree on year
    and month. *)
Theorem keys_tell_dates_apart (d d' : date) :
  date_in_range d → date_in_range d' →
  (isoformat d = isoformat d' → d = d')
  ∧ (strftime_Ym d = strftime_Ym d' ↔
     d_year d = d_year d' ∧ d_month d = d_month d').
Proof.
  intros Hd Hd'. split; [by apply isoformat_inj|].
  split; [by apply strftime_Ym_inj|].
  unfold strftime_Ym. by intros [-> ->].
Qed.

(** ** A day of calls, and the day after *)

Lemma iter_bump_counts (tk mk : string) (N : nat) (u : UsageData) :
  let u' := Nat.iter N (bump tk mk) u in
  dict_get (daily u') tk 0 = dict_get (daily u) tk 0 + Z.of_nat N
  ∧ dict_get (monthly u') mk 0 = dict_get (monthly u) mk 0 + Z.of_nat N
  ∧ (∀ k, k ≠ tk → daily u' !! k = daily u !! k)
  ∧ (∀ k, k ≠ mk → monthly u' !! k = monthly u !! k).
Proof.
  induction N as [|N (IHd & IHm & IHd' & IHm')].
  - simpl. repeat split; lia.
  - rewrite Nat2Z.inj_succ. simpl. rewrite !dict_get_insert_eq.
    split; [lia|]. split; [lia|].
    split; intros k Hk; rewrite lookup_insert_ne by done; auto.
Qed.

Lemma times_increment_turning (D D' : date) (N : nat) :
  ∀ w, clock_turns D D' (4 * N) w →
    clock_at D' (after (times N increment_usage) w)
    ∧ usage_data (after (times N increment_usage) w)
      = Nat.iter N (bump (isoformat D) (strftime_Ym D)) (usage_data w).
Proof.
  induction N as [|N IH]; intros w [Hday Hnext].
  - change (after (times 0 increment_usage) w) with w.
    split; [|done]. intros t Ht. apply Hnext. lia.
  - rewrite times_S.
    destruct (IH (after increment_usage w)) as [Hclock Hledger].
    { change (clock_turns D D' (4 * N) (advance 4 (usage_data (after increment_usage w)) w)).
      split; intros t Ht; simpl in Ht; [apply Hday|apply Hnext]; lia. }
    split; [done|]. rewrite Hledger, Nat.iter_succ_r. f_equal.
    unfold after. rewrite increment_usage_run. simpl.
    by rewrite !Hday by lia.
Qed.

(** X13: when the calendar turns to another date [D'] after N calls of
    [increment_usage] on date [D], and nothing was stored under [D'],
    [get_usage_stats] reports [today = 0]; the N calls stay stored under
    [D]; [month] includes them when [D'] is in the same month and does not
    when it is in another. *)
Theorem counts_restart_on_a_new_day (D D' : date) (N : nat) (w : World) :
  date_in_range D → date_in_range D' → D ≠ D' →
  clock_turns D D' (4 * N) w →
  daily (usage_data w) !! isoformat D' = None →
  let w' := after (times N increment_usage) w in
  let s := result get_usage_stats w' in
  today s = 0
  ∧ dict_get (daily (usage_data w')) (isoformat D) 0
    = dict_get (daily (usage_data w)) (isoformat D) 0 + Z.of_nat N
  ∧ (strftime_Ym D' = strftime_Ym D →
     month s = dict_get (monthly (usage_data w)) (strftime_Ym D) 0 + Z.of_nat N)
  ∧ (strftime_Ym D' ≠ strftime_Ym D →
     month s = dict_get (monthly (usage_data w)) (strftime_Ym D') 0).
Proof.
  intros HD HD' Hne Hturn Hnone.
  destruct (times_increment_turning D D' N w Hturn) as [Hclock Hledger].
  destruct (iter_bump_counts (isoformat D) (strftime_Ym D) N (usage_data w))
    as (Hd & Hm & Hd' & Hm').
  assert (Hkeys : isoformat D' ≠ isoformat D).
  { intros E. apply Hne. symmetry. by apply isoformat_inj. }
  cbv zeta. unfold result. rewrite get_usage_stats_run.
  cbn [fst stats_of today month]. rewrite !Hclock by lia. rewrite Hledger.
  split; [|split; [exact Hd|split]].
  - unfold dict_get. by rewrite Hd', Hnone.
  - intros ->. done.
  - intros Hmk. unfold dict_get. by rewrite Hm'.
Qed.

(** ** A series of calls *)

Lemma stats_view_steady (key : string) (args : list (string * string))
    (e : stats_endpoint) (D : date) (w : World) :
  key ≠ EmptyString → clock_at D w →
  clock_at D (after (stats_view key args e) w)
  ∧ usage_data (after (stats_view key args e) w)
    = if answered_200 w (stats_request key args e)
      then bump (isoformat D) (strftime_Ym D) (usage_data w)
      else usage_data w.
Proof.
  intros Hkey Hclock. unfold after, answered_200.
  rewrite stats_view_run by done. cbv zeta.
  destruct (next_outcome w _) as [msg|response].
  - split; [|done]. intros t Ht. by apply Hclock.
  - case_bool_decide.
    + split.
      * intros t Ht. apply Hclock. simpl in Ht. lia.
      * cbn [snd]. unfold after. rewrite increment_usage_run. simpl.
        by rewrite !Hclock by lia.
    + split; [|done]. intros t Ht. by apply Hclock.
Qed.

Lemma after_seq {A B} (m : M A) (k : M B) (w : World) :
  after (m;; k) w = after k (after m w).
Proof. unfold after, mbind, world_bind. by destruct (m w). Qed.

Lemma get_usage_stats_steady (D : date) (w : World) :
  clock_at D w →
  result get_usage_stats w
  = stats_of (isoformat D) (strftime_Ym D) (usage_data w).
Proof.
  intros Hclock. unfold result. rewrite get_usage_stats_run.
  cbn [fst]. by rewrite !Hclock by lia.
Qed.

(** X14: with the key set and the clock steady, after any series of calls
    to the statistics views the [today] and [month] counts have grown by the
    number of calls whose upstream answered 200, neither more nor less. *)
Theorem ledger_counts_the_200_answers (key : string) (D : date)
    (calls : list (stats_endpoint * list (string * string))) (w : World) :
  key ≠ EmptyString → clock_at D w →
  let s := result get_usage_stats w in
  let s' := result get_usage_stats (after (run_calls key calls) w) in
  today s' = today s + Z.of_nat (ok_answers key calls w)
  ∧ month s' = month s + Z.of_nat (ok_answers key calls w).
Proof.
  intros Hkey. revert w.
  induction calls as [|[e args] calls IH]; intros w Hclock.
  - simpl. change (after (mret tt) w) with w. lia.
  - destruct (stats_view_steady key args e D w Hkey Hclock) as [Hclock' Hledger].
    destruct (IH _ Hclock') as [IHt IHm]. cbv zeta.
    change (run_calls key ((e, args) :: calls))
      with (stats_view key args e;; run_calls key calls).
    rewrite after_seq, IHt, IHm.
    rewrite (get_usage_stats_steady D (after _ w)) by done.
    rewrite (get_usage_stats_steady D w) by done.
    rewrite Hledger. cbn [ok_answers].
    destruct (answered_200 w _); simpl; rewrite ?dict_get_insert_eq; lia.
Qed.

(** ** The views keep the ledger reachable *)

(** X15: a request to any registered path, served while the two clock
    readings of a count fall on one date, takes a reachable ledger to a
    reachable ledger, so the invariant of the ledger holds after it. *)
Theorem requests_keep_ledger_reachable (cbbd_key odds_key path : string)
    (args : list (string * string)) (view : M FlaskResponse) (w : World) :
  route cbbd_key odds_key path args = Some view →
  clock w (S (clock_reads w)) = clock w (clock_reads w) →
  reachable (usage_data w) →
  reachable (usage_data (after view w)).
Proof.
  intros Hroute Hsame Hreach.
  destruct (route_ledger _ _ _ _ _ w Hroute) as [->| ->]; [done|].
  by apply reachable_increment.
Qed.

(** ** The further properties at sample inputs *)

Lemma k_is_set : "k" ≠ EmptyString.
Proof. discriminate. Defined.

Lemma success_passes_body_through_witness :
  "k" ≠ EmptyString
  ∧ result (get_odds "k") ok_world = {| resp_body := JArr []; resp_status := 200 |}
  ∧ result (get_games "k" sample_args) ok_world
    = {| resp_body := JArr []; resp_status := 200 |}.
Proof.
  destruct (success_passes_body_through "k" sample_args Games ok_world
              {| status_code := 200; json_result := inr (JArr []) |} (JArr [])
              k_is_set eq_refl eq_refl) as [Hodds Hgames].
  split; [exact k_is_set|]. split.
  - exact (Hodds eq_refl).
  - exact (Hgames eq_refl).
Defined.

Lemma reply_200_means_upstream_200_witness :
  "k" ≠ EmptyString
  ∧ resp_status (result (get_teams "k") ok_world) = 200
  ∧ ∃ response,
      next_outcome ok_world (stats_request "k" [] Teams) = Returned response
      ∧ status_code response = 200.
Proof.
  destruct (reply_200_means_upstream_200 "k" [] Teams ok_world k_is_set)
    as [_ Hteams].
  split; [exact k_is_set|]. split; [reflexivity|].
  destruct (Hteams eq_refl) as (response & Hout & Hst & _).
  exists response. split; [exact Hout|exact Hst].
Defined.

Lemma undecodable_200_is_counted_witness :
  "k" ≠ EmptyString
  ∧ result (get_ratings "k" []) garbled_world
    = {| resp_body := JObj [("error", JStr "Expecting value")]; resp_status := 500 |}
  ∧ daily (usage_data (after (get_ratings "k" []) garbled_world)) !! "2026-01-31"
    = Some 1.
Proof.
  destruct (undecodable_200_is_counted "k" [] Ratings garbled_world _ _
              k_is_set eq_refl eq_refl eq_refl) as [Hreply Hledger].
  split; [exact k_is_set|]. split; [exact Hreply|].
  change (get_ratings "k" []) with (stats_view "k" [] Ratings).
  rewrite Hledger. reflexivity.
Defined.

Lemma odds_failures_are_500_witness :
  "k" ≠ EmptyString
  ∧ result (get_odds "k") timeout_world
    = {| resp_body := JObj [("error", JStr "Read timed out.")]; resp_status := 500 |}
  ∧ result (get_odds "k") garbled_world
    = {| resp_body := JObj [("error", JStr "Expecting value")]; resp_status := 500 |}.
Proof.
  destruct (odds_failures_are_500 "k" timeout_world k_is_set) as [Hraised _].
  destruct (odds_failures_are_500 "k" garbled_world k_is_set) as [_ Hbody].
  split; [exact k_is_set|]. split.
  - exact (Hraised _ eq_refl).
  - exact (Hbody _ _ eq_refl eq_refl).
Defined.

Lemma one_outbound_call_witness :
  "k" ≠ EmptyString
  ∧ (∃ r, sent (after (get_ratings "k" sample_args) ok_world) = [r]
          ∧ req_timeout r = 30
          ∧ req_params r = [("season", "2025")]).
Proof.
  destruct (one_outbound_call "k" sample_args Ratings ok_world k_is_set)
    as [_ (r & Hsent & Htimeout & _ & _)].
  split; [exact k_is_set|].
  exists r. split; [exact Hsent|]. split; [exact Htimeout|].
  assert (Hr : Some r = Some (stats_request "k" sample_args Ratings))
    by exact (f_equal head (eq_sym Hsent)).
  injection Hr as ->. reflexivity.
Defined.

Lemma season_is_all_that_matters_witness :
  args_get sample_args "season" "2026" = args_get [("season", "2025")] "season" "2026"
  ∧ get_ratings "k" sample_args = get_ratings "k" [("season", "2025")]
  ∧ ("season" ∉ arg_names [("team", "Duke")])
  ∧ get_games "k" [("team", "Duke")] = get_games "k" [("season", "2026")].
Proof.
  assert (Hseason : "season" ∉ arg_names [("team", "Duke")]).
  { intros H. repeat (apply elem_of_cons in H as [H|H]; [discriminate H|]).
    by apply not_elem_of_nil in H. }
  split; [reflexivity|].
  split; [exact (proj1 (proj1 (season_is_all_that_matters "k" sample_args
                                 [("season", "2025")]) eq_refl))|].
  split; [exact Hseason|].
  exact (proj2 (proj2 (season_is_all_that_matters "k" [("team", "Duke")] []) Hseason)).
Defined.

Lemma request_moves_ledger_forward_witness :
  route "k" "o" "/api/teams" [] = Some (get_teams "k")
  ∧ dict_get (daily (usage_data (after (get_teams "k") ok_world))) "2026-01-31" 0
    ≤ dict_get (daily (usage_data ok_world)) "2026-01-31" 0 + 1
  ∧ dom (monthly (usage_data ok_world))
    ⊆ dom (monthly (usage_data (after (get_teams "k") ok_world))).
Proof.
  destruct (request_moves_ledger_forward "k" "o" "/api/teams" [] (get_teams "k")
              ok_world eq_refl) as (_ & Hdom & Hdaily & _).
  split; [reflexivity|]. split.
  - exact (proj2 (Hdaily "2026-01-31")).
  - exact Hdom.
Defined.

Lemma increment_reports_new_counts_witness :
  clock_at jan31 ok_world
  ∧ today (result increment_usage ok_world) = 1
  ∧ todayRemaining (result increment_usage ok_world) = 99.
Proof.
  destruct (increment_reports_new_counts jan31 ok_world (sample_clock _ _ _))
    as (Htoday & _ & Hleft & _).
  split; [apply sample_clock|]. split.
  - exact (eq_trans Htoday eq_refl).
  - exact (eq_trans Hleft eq_refl).
Defined.

Lemma reachable_stats_bounds_witness :
  reachable (usage_data (with_ledger two_calls_ledger ok_world))
  ∧ today (result get_usage_stats (with_ledger two_calls_ledger ok_world))
    ≤ month (result get_usage_stats (with_ledger two_calls_ledger ok_world))
  ∧ today (result get_usage_stats (with_ledger two_calls_ledger ok_world))
    + todayRemaining (result get_usage_stats (with_ledger two_calls_ledger ok_world))
    = 100.
Proof.
  destruct (reachable_stats_bounds (with_ledger two_calls_ledger ok_world)
              two_calls_reachable) as (_ & _ & _ & Hsum & Hle).
  split; [exact two_calls_reachable|]. split.
  - exact (Hle eq_refl).
  - apply Hsum. vm_compute. discriminate.
Defined.

Lemma sample_dates_in_range :
  date_in_range jan30 ∧ date_in_range jan31 ∧ date_in_range feb01.
Proof. unfold date_in_range. simpl. lia. Defined.

Lemma keys_tell_dates_apart_witness :
  date_in_range jan30 ∧ date_in_range jan31
  ∧ isoformat jan30 ≠ isoformat jan31
  ∧ d_month jan30 = d_month jan31.
Proof.
  destruct sample_dates_in_range as (H30 & H31 & _).
  destruct (keys_tell_dates_apart jan30 jan31 H30 H31) as [Hday Hmonth].
  split; [exact H30|]. split; [exact H31|]. split.
  - intros E. specialize (Hday E). discriminate Hday.
  - exact (proj2 (proj1 Hmonth eq_refl)).
Defined.

Lemma turning_world_turns : clock_turns jan31 feb01 (4 * 3) turning_world.
Proof.
  split; intros t Ht; simpl in *;
    destruct (Nat.ltb_spec t 12) as [Hlt|Hge]; first [reflexivity | lia].
Defined.

Lemma counts_restart_on_a_new_day_witness :
  date_in_range jan31 ∧ date_in_range feb01 ∧ jan31 ≠ feb01
  ∧ clock_turns jan31 feb01 (4 * 3) turning_world
  ∧ daily (usage_data turning_world) !! isoformat feb01 = None
  ∧ today (result get_usage_stats (after (times 3 increment_usage) turning_world)) = 0
  ∧ month (result get_usage_stats (after (times 3 increment_usage) turning_world)) = 0
  ∧ dict_get (daily (usage_data (after (times 3 increment_usage) turning_world)))
      "2026-01-31" 0 = 3.
Proof.
  destruct sample_dates_in_range as (_ & H31 & H01).
  assert (Hne : jan31 ≠ feb01) by discriminate.
  destruct (counts_restart_on_a_new_day jan31 feb01 3 turning_world
              H31 H01 Hne turning_world_turns eq_refl)
    as (Htoday & Hkept & _ & Hmonth).
  split; [exact H31|]. split; [exact H01|]. split; [exact Hne|].
  split; [exact turning_world_turns|]. split; [reflexivity|].
  split; [exact Htoday|]. split.
  - apply (eq_trans (Hmonth ltac:(discriminate))). reflexivity.
  - exact (eq_trans Hkept eq_refl).
Defined.

Lemma flaky_clock : clock_at jan31 flaky_world.
Proof. intros t _. reflexivity. Defined.

Lemma ledger_counts_the_200_answers_witness :
  "k" ≠ EmptyString ∧ clock_at jan31 flaky_world
  ∧ ok_answers "k" [(Ratings, []); (Games, []); (Teams, []); (Teams, [])] flaky_world
    = 2%nat
  ∧ today (result get_usage_stats
             (after (run_calls "k" [(Ratings, []); (Games, []); (Teams, []); (Teams, [])])
                    flaky_world)) = 2.
Proof.
  destruct (ledger_counts_the_200_answers "k" jan31
              [(Ratings, []); (Games, []); (Teams, []); (Teams, [])] flaky_world
              k_is_set flaky_clock) as [Htoday _].
  split; [exact k_is_set|]. split; [exact flaky_clock|].
  split; [vm_compute; reflexivity|].
  exact (eq_trans Htoday eq_refl).
Defined.

Lemma requests_keep_ledger_reachable_witness :
  route "k" "o" "/api/ratings" sample_args = Some (get_ratings "k" sample_args)
  ∧ clock ok_world (S (clock_reads ok_world)) = clock ok_world (clock_reads ok_world)
  ∧ reachable (usage_data ok_world)
  ∧ reachable (usage_data (after (get_ratings "k" sample_args) ok_world)).
Proof.
  split; [reflexivity|]. split; [reflexivity|]. split; [exact reachable_start|].
  exact (requests_keep_ledger_reachable "k" "o" "/api/ratings" sample_args
           (get_ratings "k" sample_args) ok_world eq_refl eq_refl reachable_start).
Defined.
